(** * abc_container: the ABContainer metaclass

    A shallow embedding of [src/abc_container.py] and the properties of its
    class-creation check.

    The metaclass intercepts class creation.  A class none of whose direct
    bases has type [ABContainer] must carry at least one required
    annotation; any other class must expose, as attributes, every required
    annotation of its direct bases of type [ABContainer].

    Modelling choices.
    - A class object is a finite tree: its name, its direct bases (class
      objects again), the keys of its own [__annotations__] in insertion
      order, the names bound in its own namespace, and its metaclass.
      Class objects are never mutated after creation.
    - [cls.__annotations__] is read with the semantics of Python 3.10 and
      later: it is the class's own annotation dictionary, empty when the
      body annotates nothing.
    - [super().__new__] is taken on its success path: it builds the class
      object, giving it the most derived metaclass among the one it is
      called with and those of the bases, and adding the slot descriptors
      of the body to its namespace.  Where the interpreter's own class
      construction fails (a [TypeError] for a metaclass conflict or an
      inconsistent base order, a [ValueError] for a slot that clashes with
      a class variable), line 29 raises before any check of this file
      runs; these failures are not modelled, and statements about
      [__new__] are about calls in which line 29 returns.
    - Sets of strings are [gset string]; iteration over a set goes through
      [elements], whose order the code never depends on. *)

From stdpp Require Import base option list sets gmap strings.
From Stdlib Require Import Lia.

Local Open Scope list_scope.

(** ** Data model *)

(** The metaclass of a class object, as far as [type(c) == ABContainer]
    and attribute lookup can tell. *)
Inductive metaclass : Set :=
| ABContainer                     (* the metaclass of src/abc_container.py *)
| DerivedMeta (name : string)     (* a metaclass that subclasses ABContainer *)
| ForeignMeta (name : string).    (* type, abc.ABCMeta, any unrelated metaclass *)

#[global] Instance metaclass_eq_dec : EqDecision metaclass.
Proof. solve_decision. Defined.

(** The metaclasses a metaclass derives from, itself first: its own MRO as
    far as the model knows it.  [ABContainer] extends [abc.ABCMeta], which
    extends [type]. *)
Definition supers (m : metaclass) : list metaclass :=
  match m with
  | ABContainer => [ABContainer; ForeignMeta "ABCMeta"; ForeignMeta "type"]
  | DerivedMeta name =>
      [DerivedMeta name; ABContainer; ForeignMeta "ABCMeta"; ForeignMeta "type"]
  | ForeignMeta name => [ForeignMeta name; ForeignMeta "type"]
  end.

(** [issubclass(m1, m2)] on metaclasses. *)
Definition derives_from (m1 m2 : metaclass) : bool :=
  bool_decide (m2 ∈ supers m1).

(** The [_dict] argument of [__new__], by what the code and the
    interpreter read of it: the keys of its [__annotations__] entry, in
    order; the names the class body binds to a value and the class keeps;
    and, for a body with a [__slots__] entry, the names of the slot
    descriptors the interpreter creates for it. *)
Inductive namespace : Set :=
| Namespace (annotations assigned : list string)
| SlottedNamespace (annotations assigned slots : list string).

Definition ns_annotations (d : namespace) : list string :=
  match d with
  | Namespace annotations _ | SlottedNamespace annotations _ _ => annotations
  end.

Definition ns_assigned (d : namespace) : list string :=
  match d with
  | Namespace _ assigned | SlottedNamespace _ assigned _ => assigned
  end.

Definition ns_slots (d : namespace) : option (list string) :=
  match d with
  | Namespace _ _ => None
  | SlottedNamespace _ _ slots => Some slots
  end.

(** A class object. *)
#[local] Set Warnings "-register-all".
Inductive class : Set :=
  Class (cls_name : string) (cls_bases : list class)
        (cls_annotations : list string) (cls_dict : list string)
        (cls_type : metaclass).

Definition cls_name (c : class) : string :=
  match c with Class n _ _ _ _ => n end.
Definition cls_bases (c : class) : list class :=
  match c with Class _ b _ _ _ => b end.
Definition cls_annotations (c : class) : list string :=
  match c with Class _ _ a _ _ => a end.
Definition cls_dict (c : class) : list string :=
  match c with Class _ _ _ d _ => d end.
Definition cls_type (c : class) : metaclass :=
  match c with Class _ _ _ _ m => m end.

(** The universal base class. *)
Definition object : class := Class "object" [] [] [] (ForeignMeta "type").

(** The metaclass [type.__new__] settles on: among the metaclass it is
    called with and the types of the bases, the one that derives from all
    the others.  When there is none the interpreter raises [TypeError]
    (metaclass conflict); the model, which follows the success path,
    keeps [mcs]. *)
Definition most_derived (mcs : metaclass) (bases : list class) : metaclass :=
  let candidates := mcs :: map cls_type bases in
  default mcs (List.find (λ w, forallb (derives_from w) candidates) candidates).

(** The descriptors [type.__new__] adds to the namespace of the class: one
    per slot for a body with [__slots__], and otherwise those of the
    instance dictionary and of the weak-reference list. *)
Definition implicit_names (_dict : namespace) : list string :=
  match ns_slots _dict with
  | Some slots => slots
  | None => ["__dict__"; "__weakref__"]
  end.

(** What [super().__new__(mcs, what, bases, _dict)] returns: an empty base
    list is replaced by [(object,)], the namespace of the class holds the
    names the body binds and the descriptors the interpreter adds, and the
    type of the class is the most derived metaclass.  (When that is not
    [mcs], the interpreter hands the construction over to the [__new__] of
    the most derived metaclass; for a metaclass that inherits
    [ABContainer.__new__] this runs the checks below a first time on the
    same class, with the same outcome: [new_most_derived].) *)
Definition type_new (mcs : metaclass) (what : string) (bases : list class)
    (_dict : namespace) : class :=
  Class what
        (match bases with [] => [object] | _ => bases end)
        (ns_annotations _dict)
        (ns_assigned _dict ++ implicit_names _dict)
        (most_derived mcs bases).

(** Exceptions raised by the metaclass. *)
Inductive exn : Set := NameError (msg : string).

(** ** Ancestor walk *)

(** [for base in bases: bases.extend(rec(base))]: the list iterator keeps
    an index [i] into the list it walks and sees every element appended
    while it runs.  [fuel] bounds the number of iterations. *)
Fixpoint for_extend (rec : class → option (list class)) (fuel i : nat)
    (bases : list class) : option (list class) :=
  match fuel with
  | O => None
  | S fuel' =>
      match bases !! i with
      | None => Some bases
      | Some base =>
          match rec base with
          | None => None
          | Some more => for_extend rec fuel' (S i) (bases ++ more)
          end
      end
  end.

(** [ABContainer.__get_class_bases], with [fuel] bounding both the depth of
    the recursion and the length of each loop. *)
Fixpoint get_class_bases_fuel (fuel : nat) (cls : class) : option (list class) :=
  match fuel with
  | O => None
  | S fuel' => for_extend (get_class_bases_fuel fuel') fuel' 0 (cls_bases cls)
  end.

(** Height of the inheritance tree above a class. *)
Fixpoint height (c : class) : nat :=
  match c with
  | Class _ bases _ _ _ =>
      match bases with
      | [] => 0
      | _ => S (foldr (λ b h, Nat.max (height b) h) 0 bases)
      end
  end.

(** The list the walk produces, level by level: the start list, then what
    [R] yields for its elements, and so on for [h] more levels. *)
Fixpoint levels (R : class → list class) (h : nat) (l : list class) : list class :=
  match h with
  | O => l
  | S h' => l ++ levels R h' (flat_map R l)
  end.

(** The list [__get_class_bases] returns for a class of height below [h],
    by recursion on [h]; it serves to compute the fuel and to reason about
    the loop, and is proved equal to what the loop returns. *)
Fixpoint walk (h : nat) (c : class) : list class :=
  match h with
  | O => []
  | S h' => levels (walk h') h' (cls_bases c)
  end.

(** Fuel that suffices for a class whose height is below [h]: enough for
    every iteration of the loop and for each recursive call it makes. *)
Fixpoint walk_fuel (h : nat) (c : class) : nat :=
  match h with
  | O => 0
  | S h' => 2 + length (walk h c) + foldr (λ y n, walk_fuel h' y + n) 0 (walk h c)
  end.

(** [ABContainer.__get_class_bases]: the walk run with enough fuel
    ([get_class_bases_total] below shows it never runs out). *)
Definition __get_class_bases (cls : class) : list class :=
  default [] (get_class_bases_fuel (walk_fuel (S (height cls)) cls) cls).

(** [ABContainer._get_class_bases]. *)
Definition _get_class_bases (cls : class) : gset string :=
  let bases := __get_class_bases cls in
  list_to_set (map cls_name bases).

(** All proper ancestors of a class: its direct bases and, transitively,
    theirs. *)
Fixpoint ancestors (c : class) : list class :=
  match c with
  | Class _ bases _ _ _ => flat_map (λ b, b :: ancestors b) bases
  end.

(** Every class object of a running interpreter other than [object] has a
    base: the only class without one is named "object". *)
Fixpoint rooted (c : class) : bool :=
  match c with
  | Class name bases _ _ _ =>
      match bases with
      | [] => bool_decide (name = "object")
      | _ => forallb rooted bases
      end
  end.

(** ** Required attributes *)

(** The name-mangling prefix of a class name: [f'_{name}__']. *)
Definition mangle_prefix (name : string) : string := "_" +:+ name +:+ "__".

(** Lines 53-55 of [_get_class_needed_attributes]: the prefixes whose
    annotations are skipped. *)
Definition omit_starting_sequences (cls : class) : gset string :=
  let omit_names := _get_class_bases cls in
  let omit_names := omit_names ∪ {[ cls_name cls ]} in
  set_map mangle_prefix omit_names.

(** Line 56: the keys of the class's annotation dictionary. *)
Definition all_inherit_attributes (cls : class) : list string :=
  cls_annotations cls.

(** Lines 59-63: the inner loop, leaving at the first matching prefix. *)
Fixpoint must_inherit (attribute : string) (seqs : list string) : bool :=
  match seqs with
  | [] => true
  | starting_seq :: seqs' =>
      if String.prefix starting_seq attribute then false
      else must_inherit attribute seqs'
  end.

(** [ABContainer._get_class_needed_attributes]. *)
Definition _get_class_needed_attributes (cls : class) : list string :=
  let seqs := elements (omit_starting_sequences cls) in
  foldl (λ necessary_attributes attribute,
           if must_inherit attribute seqs
           then necessary_attributes ++ [attribute]
           else necessary_attributes)
        [] (all_inherit_attributes cls).

(** ** Attribute lookup on a class object *)

(** Lookup along the class and its bases: the name is bound in the
    namespace of the class or of one of its ancestors.  (Python searches
    them in MRO order; whether the name is found does not depend on the
    order.) *)
Fixpoint mro_lookup (name : string) (c : class) : bool :=
  match c with
  | Class _ bases _ dict _ =>
      bool_decide (name ∈ dict) || existsb (mro_lookup name) bases
  end.

(** The names the body of [class ABContainer] binds; a class whose
    metaclass is [ABContainer], or derives from it, answers to them. *)
Definition ABContainer_namespace : list string :=
  ["__doc__"; "__new__"; "_get_class_needed_attributes"; "_get_class_bases";
   "_ABContainer__get_class_bases"].

Section Interpreter.

(** The names bound in the namespace of a metaclass the source does not
    define: those of [type] (with [object]'s, which every class answers
    to), of [abc.ABCMeta], of the body of another metaclass; for
    [ABContainer], names bound on it beyond those of its body.  They vary
    with the Python version; nothing below depends on which they are. *)
Variable builtin_attrs : metaclass → string → bool.

(** Lookup on the metaclass, which [hasattr] falls back to: the name is
    bound by the metaclass or by one of the metaclasses it derives from. *)
Definition type_lookup (m : metaclass) (name : string) : bool :=
  existsb (λ s, match s with
                | ABContainer => bool_decide (name ∈ ABContainer_namespace)
                | _ => false
                end || builtin_attrs s name)
          (supers m).

(** [hasattr(cls, name)]. *)
Definition hasattr (cls : class) (name : string) : bool :=
  mro_lookup name cls || type_lookup (cls_type cls) name.

(** ** Class creation *)

(** Lines 30-35: the loop over [bases]. *)
Definition scan_bases (bases : list class) : bool * list string :=
  foldl (λ '(is_first_level_child, parent_required_attributes) parent_class,
           if bool_decide (cls_type parent_class = ABContainer)
           then (false, parent_required_attributes
                          ++ _get_class_needed_attributes parent_class)
           else (is_first_level_child, parent_required_attributes))
        (true, []) bases.

(** Lines 40-43: the requirements the new class does not expose. *)
Definition missing_requirements (cls : class)
    (parent_required_attributes : list string) : list string :=
  foldl (λ missing requirement,
           if negb (hasattr cls requirement)
           then missing ++ [requirement]
           else missing)
        [] parent_required_attributes.

(** The two messages.  The spec calls the first error EmptyInterfaceError
    and the second UnmetRequirementError; the code raises [NameError] for
    both. *)
Definition empty_interface_error (name : string) : exn :=
  NameError ("Container " +:+ name +:+ " does not contain any required fields.").

Definition unmet_requirement_error (name : string) (missing : list string) : exn :=
  NameError ("Container " +:+ name +:+ " does not handle following attributes "
             +:+ String.concat ", " missing +:+ ".").

(** [ABContainer.__new__]: the new class, or the exception raised. *)
Definition __new__ (mcs : metaclass) (what : string) (bases : list class)
    (_dict : namespace) : exn + class :=
  let cls := type_new mcs what bases _dict in
  let '(is_first_level_child, parent_required_attributes) := scan_bases bases in
  if is_first_level_child then
    match _get_class_needed_attributes cls with
    | [] => inl (empty_interface_error (cls_name cls))
    | _ :: _ => inr cls
    end
  else
    match missing_requirements cls parent_required_attributes with
    | [] => inr cls
    | (_ :: _) as missing => inl (unmet_requirement_error (cls_name cls) missing)
    end.

End Interpreter.

(** ** Notions the properties are stated with *)

(** A participating ancestor: a base whose type is exactly [ABContainer]. *)
Definition participating (c : class) : bool :=
  bool_decide (cls_type c = ABContainer).

(** The requirements put on a class with the given direct bases: the
    required attributes of its participating bases, one base after the
    other, repetitions kept. *)
Definition required_of (bases : list class) : list string :=
  flat_map _get_class_needed_attributes (List.filter participating bases).

Section Lineage.

Variable builtin_attrs : metaclass → string → bool.


End Lineage.

(** ** Classes used in the examples *)

(** A sample of the names CPython's [object] and [type] supply to every
    class, to run the examples with. *)
Definition sample_builtin_attrs : metaclass → string → bool :=
  λ _ name,
    bool_decide (name ∈ ["__class__"; "__dict__"; "__doc__"; "__module__";
                         "__name__"; "__qualname__"; "__bases__"; "__mro__";
                         "__init__"; "__new__"; "__subclasses__"; "mro"]).

(** The classes of the docstring of [ABContainer].  The body of
    [ContainerClassInterface] annotates [__omit_this_field], which the
    compiler stores under its mangled name. *)
Definition ContainerClassInterface : class :=
  type_new ABContainer "ContainerClassInterface" []
    (Namespace ["field_that_must_be_inherited";
                "_also_inherit_private_single_dash";
                "_ContainerClassInterface__omit_this_field"] []).

Definition ContainerSubclassA : class :=
  type_new ABContainer "ContainerSubclassA" [ContainerClassInterface]
    (Namespace [] ["field_that_must_be_inherited";
                   "_also_inherit_private_single_dash"]).

Definition ContainerSubclassAA : class :=
  type_new ABContainer "ContainerSubclassAA" [ContainerSubclassA]
    (Namespace [] []).

(** An ordinary class with an annotation of its own. *)
Definition PlainBase : class :=
  Class "PlainBase" [object] ["x"] [] (ForeignMeta "type").

Definition RootA : class := type_new ABContainer "A" [] (Namespace ["a"] []).

Definition RootB : class := type_new ABContainer "B" [] (Namespace ["a"; "b"] []).

Definition NamesAStaticMethod : class :=
  type_new ABContainer "X" [] (Namespace ["_get_class_bases"] []).

Definition Root7 : class := type_new ABContainer "Root" [] (Namespace ["a"] []).

Definition Parent7 : class :=
  type_new ABContainer "Parent" [Root7] (Namespace ["z"] ["a"; "z"]).

(** A class whose metaclass derives from [ABContainer] is not a
    participating ancestor: a subclass of it is handled as a root
    interface, here one without required attributes. *)
Definition ViaDerivedMeta : class :=
  type_new (DerivedMeta "M") "P" [ContainerClassInterface]
    (Namespace [] ["field_that_must_be_inherited";
                   "_also_inherit_private_single_dash"]).


Definition Mid7 : class :=
  type_new ABContainer "Mid" [Root7] (Namespace ["z"] ["a"]).

Definition RootViaDerivedMeta : class :=
  type_new ABContainer "Root" [ViaDerivedMeta] (Namespace ["a"; "b"] []).

(** ** The inheritance tree *)

Lemma class_ind' (P : class → Prop) :
  (∀ name bases ann dict m, Forall P bases → P (Class name bases ann dict m)) →
  ∀ c, P c.
Proof.
  intros step. fix IH 1. intros [name bases ann dict m].
  apply step. induction bases as [|b bases IHb]; constructor; [apply IH | exact IHb].
Qed.

Lemma elem_of_flat_map {A B} (f : A → list B) (l : list A) (y : B) :
  y ∈ flat_map f l ↔ ∃ x, x ∈ l ∧ y ∈ f x.
Proof.
  rewrite list_elem_of_In, in_flat_map.
  split; intros (x & Hx & Hy); exists x; split; by apply list_elem_of_In.
Qed.

Lemma flat_map_nil_all {A B} (f : A → list B) (l : list A) :
  (∀ x, x ∈ l → f x = []) → flat_map f l = [].
Proof.
  induction l as [|x l IH]; intros H; simpl; [done|].
  rewrite (H x) by left. apply IH. intros y Hy. apply H. by right.
Qed.

Lemma height_bases c b : b ∈ cls_bases c → height b < height c.
Proof.
  destruct c as [name bases ann dict m]. simpl. intros Hb.
  destruct bases as [|b0 bases]; [by apply elem_of_nil in Hb|].
  apply Nat.lt_succ_r. revert Hb. generalize (b0 :: bases). clear.
  intros l. induction l as [|x l IH]; intros Hb.
  - by apply elem_of_nil in Hb.
  - apply elem_of_cons in Hb as [->|Hb]; simpl; [lia|]. specialize (IH Hb). lia.
Qed.

Lemma elem_of_ancestors c x :
  x ∈ ancestors c ↔ ∃ b, b ∈ cls_bases c ∧ (x = b ∨ x ∈ ancestors b).
Proof.
  destruct c as [name bases ann dict m]. simpl. rewrite elem_of_flat_map.
  split; intros (b & Hb & Hx); exists b; split; try done.
  - by apply elem_of_cons in Hx.
  - by apply elem_of_cons.
Qed.

Lemma ancestors_height c x : x ∈ ancestors c → height x < height c.
Proof.
  revert x. induction c as [name bases ann dict m IH] using class_ind'.
  intros x Hx. apply elem_of_ancestors in Hx as (b & Hb & Hx).
  pose proof (height_bases _ _ Hb) as Hh.
  destruct Hx as [->|Hx]; [done|].
  simpl in Hb. rewrite Forall_forall in IH. specialize (IH b Hb x Hx). lia.
Qed.

Lemma ancestors_trans c y x : y ∈ ancestors c → x ∈ ancestors y → x ∈ ancestors c.
Proof.
  revert y x. induction c as [name bases ann dict m IH] using class_ind'.
  intros y x Hy Hx. apply elem_of_ancestors in Hy as (b & Hb & Hy).
  apply elem_of_ancestors. exists b. split; [done|]. right.
  destruct Hy as [->|Hy]; [done|].
  simpl in Hb. rewrite Forall_forall in IH. by apply (IH b Hb y x).
Qed.

(** ** The level-by-level list *)

Lemma levels_nil R h : levels R h [] = [].
Proof. induction h as [|h IH]; simpl; [done|]. exact IH. Qed.

Lemma elem_of_levels_start R h l x : x ∈ l → x ∈ levels R h l.
Proof. destruct h; simpl; [done|]. intros Hx. apply elem_of_app. by left. Qed.

Lemma elem_of_levels_next R h l x :
  x ∈ levels R h (flat_map R l) → x ∈ levels R (S h) l.
Proof. simpl. intros Hx. apply elem_of_app. by right. Qed.

Lemma levels_ancestors R h l x :
  (∀ y z, z ∈ R y → z ∈ ancestors y) →
  x ∈ levels R h l → ∃ y, y ∈ l ∧ (x = y ∨ x ∈ ancestors y).
Proof.
  intros HR. revert l. induction h as [|h IH]; intros l; simpl.
  - intros Hx. exists x. by split; [|left].
  - intros Hx. apply elem_of_app in Hx as [Hx|Hx].
    + exists x. by split; [|left].
    + apply IH in Hx as (y & Hy & Hx).
      apply elem_of_flat_map in Hy as (y0 & Hy0 & Hy). apply HR in Hy.
      exists y0. split; [done|]. right.
      destruct Hx as [->|Hx]; [done|]. by apply (ancestors_trans _ y).
Qed.

Lemma walk_ancestors h c x : x ∈ walk h c → x ∈ ancestors c.
Proof.
  revert c x. induction h as [|h IH]; intros c x; simpl.
  - intros Hx. by apply elem_of_nil in Hx.
  - intros Hx. apply (levels_ancestors _ _ _ _ (IH)) in Hx as (y & Hy & Hx).
    apply elem_of_ancestors. by exists y.
Qed.

Lemma ancestors_walk h c x : height c < h → x ∈ ancestors c → x ∈ walk h c.
Proof.
  revert c x. induction h as [|h IH]; intros c x Hh Hx; [lia|].
  simpl. apply elem_of_ancestors in Hx as (b & Hb & Hx).
  destruct Hx as [->|Hx]; [by apply elem_of_levels_start|].
  pose proof (height_bases _ _ Hb) as Hhb.
  destruct h as [|h]; [lia|].
  apply elem_of_levels_next, elem_of_levels_start, elem_of_flat_map.
  exists b. split; [done|]. apply IH; [lia | done].
Qed.

(** ** The walk terminates *)

(** Running the loop over a block [l] of the list appends what the
    recursive calls return for its elements, in order. *)
Lemma for_extend_block rec R l :
  (∀ y, y ∈ l → rec y = Some (R y)) →
  ∀ done acc f,
    for_extend rec (length l + f) (length done) (done ++ l ++ acc)
    = for_extend rec f (length (done ++ l)) ((done ++ l) ++ acc ++ flat_map R l).
Proof.
  induction l as [|x l IH]; intros Hrec done acc f.
  - simpl. by rewrite !app_nil_r.
  - cbn [length Nat.add for_extend].
    change (done ++ (x :: l) ++ acc) with (done ++ x :: (l ++ acc)).
    rewrite list_lookup_middle by done.
    rewrite (Hrec x) by left.
    replace ((done ++ x :: l ++ acc) ++ R x)
      with ((done ++ [x]) ++ l ++ (acc ++ R x))
      by (rewrite <- !app_assoc; simpl; by rewrite <- !app_assoc).
    replace (S (length done)) with (length (done ++ [x]))
      by (rewrite length_app; simpl; lia).
    rewrite IH by (intros y Hy; apply Hrec; by right).
    simpl. by rewrite <- !app_assoc.
Qed.

Lemma for_extend_levels rec R h :
  (∀ y z, z ∈ R y → height z < height y) →
  ∀ l done f,
    (∀ y, y ∈ levels R h l → rec y = Some (R y)) →
    (∀ y, y ∈ l → height y ≤ h) →
    for_extend rec (length (levels R h l) + S f) (length done) (done ++ l)
    = Some (done ++ levels R h l).
Proof.
  intros HR. induction h as [|h IH]; intros l done f Hrec Hh.
  - cbn [levels] in *.
    pose proof (for_extend_block rec R l Hrec done [] (S f)) as E.
    rewrite app_nil_r in E. rewrite E. clear E.
    rewrite (flat_map_nil_all R l).
    + simpl. rewrite !app_nil_r. by rewrite lookup_ge_None_2.
    + intros y Hy. destruct (R y) as [|z r] eqn:E; [done|].
      assert (height z < height y) by (apply HR; rewrite E; left).
      specialize (Hh y Hy). lia.
  - cbn [levels] in *. rewrite length_app, <- Nat.add_assoc.
    assert (∀ y, y ∈ l → rec y = Some (R y)) as Hl
      by (intros y Hy; apply Hrec, elem_of_app; by left).
    pose proof (for_extend_block rec R l Hl done []
                  (length (levels R h (flat_map R l)) + S f)) as E.
    rewrite app_nil_r in E. rewrite E. clear E. simpl.
    rewrite IH.
    + by rewrite <- app_assoc.
    + intros y Hy. apply Hrec, elem_of_app. by right.
    + intros y Hy. apply elem_of_flat_map in Hy as (y0 & Hy0 & Hy).
      apply HR in Hy. specialize (Hh y0 Hy0). lia.
Qed.

Lemma foldr_sum_ge {A} (w : A → nat) (l : list A) (x : A) :
  x ∈ l → w x ≤ foldr (λ y n, w y + n) 0 l.
Proof.
  induction l as [|y l IH]; intros Hx.
  - by apply elem_of_nil in Hx.
  - apply elem_of_cons in Hx as [->|Hx]; simpl; [lia|]. specialize (IH Hx). lia.
Qed.

Lemma walk_fuel_S h c :
  walk_fuel (S h) c
  = 2 + length (walk (S h) c) + foldr (λ y n, walk_fuel h y + n) 0 (walk (S h) c).
Proof. reflexivity. Qed.

Lemma walk_height h c x : x ∈ walk h c → height x < height c.
Proof. intros Hx. by apply ancestors_height, (walk_ancestors h). Qed.

(** With fuel [walk_fuel h c] or more, the walk from a class of height
    below [h] returns, and returns [walk h c]. *)
Lemma get_class_bases_fuel_walk h :
  ∀ c fuel, height c < h → walk_fuel h c ≤ fuel →
    get_class_bases_fuel fuel c = Some (walk h c).
Proof.
  induction h as [|h IH]; intros c fuel Hh Hfuel; [lia|].
  rewrite walk_fuel_S in Hfuel.
  destruct fuel as [|fuel]; [lia|].
  cbn [get_class_bases_fuel].
  set (n := foldr (λ y n, walk_fuel h y + n) 0 (walk (S h) c)) in *.
  replace fuel with (length (walk (S h) c) + S (fuel - length (walk (S h) c) - 1))
    at 2 by lia.
  change (cls_bases c) with ([] ++ cls_bases c).
  change 0 with (length (@nil class)).
  change (walk (S h) c) with (levels (walk h) h (cls_bases c)) at 1 3.
  rewrite (for_extend_levels (get_class_bases_fuel fuel) (walk h) h).
  - done.
  - intros y z. apply walk_height.
  - intros y Hy. apply IH.
    + apply (walk_height (S h)) in Hy. lia.
    + pose proof (foldr_sum_ge (walk_fuel h) (walk (S h) c) y Hy). subst n. lia.
  - intros y Hy. apply height_bases in Hy. lia.
Qed.

(** [__get_class_bases] returns for every class: the fuel it is run with
    suffices, and so does any larger amount. *)
Lemma get_class_bases_total c fuel :
  walk_fuel (S (height c)) c ≤ fuel →
  get_class_bases_fuel fuel c = Some (__get_class_bases c).
Proof.
  intros Hfuel. unfold __get_class_bases.
  rewrite !(get_class_bases_fuel_walk (S (height c))) by lia. done.
Qed.

(** The walk lists exactly the proper ancestors (with repetitions). *)
Lemma elem_of_get_class_bases c x : x ∈ __get_class_bases c ↔ x ∈ ancestors c.
Proof.
  unfold __get_class_bases.
  rewrite (get_class_bases_fuel_walk (S (height c))) by lia.
  change (x ∈ walk (S (height c)) c ↔ x ∈ ancestors c).
  split; [apply (walk_ancestors (S (height c))) | apply ancestors_walk; lia].
Qed.

Lemma elem_of_get_class_bases_names c name :
  name ∈ _get_class_bases c ↔ ∃ x, x ∈ ancestors c ∧ cls_name x = name.
Proof.
  unfold _get_class_bases. rewrite elem_of_list_to_set, list_elem_of_In, in_map_iff.
  split; intros (x & H1 & H2); exists x.
  - split; [|done]. by apply elem_of_get_class_bases, list_elem_of_In.
  - split; [done|]. by apply list_elem_of_In, elem_of_get_class_bases.
Qed.

(** ** The loops as filters *)

Lemma foldl_append_if {A} (p : A → bool) (l init : list A) :
  foldl (λ acc x, if p x then acc ++ [x] else acc) init l = init ++ List.filter p l.
Proof.
  revert init. induction l as [|x l IH]; intros init; simpl.
  - by rewrite app_nil_r.
  - rewrite IH. destruct (p x); [|done]. by rewrite <- app_assoc.
Qed.

Lemma must_inherit_true attribute seqs :
  must_inherit attribute seqs = true ↔
  ∀ s, s ∈ seqs → String.prefix s attribute = false.
Proof.
  induction seqs as [|s0 seqs IH]; simpl.
  - split; [|done]. intros _ s Hs. by apply elem_of_nil in Hs.
  - destruct (String.prefix s0 attribute) eqn:E.
    + split; [done|]. intros H. rewrite (H s0) in E by left. done.
    + rewrite IH. split.
      * intros H s Hs. apply elem_of_cons in Hs as [->|Hs]; [done|by apply H].
      * intros H s Hs. apply H. by right.
Qed.

Lemma needed_attributes_filter cls :
  _get_class_needed_attributes cls
  = List.filter (λ a, must_inherit a (elements (omit_starting_sequences cls)))
                (cls_annotations cls).
Proof. unfold _get_class_needed_attributes. by rewrite foldl_append_if. Qed.

Lemma elem_of_filter_bool {A} (p : A → bool) (l : list A) (x : A) :
  x ∈ List.filter p l ↔ x ∈ l ∧ p x = true.
Proof. by rewrite !list_elem_of_In, filter_In. Qed.

Lemma elem_of_needed_attributes cls name :
  name ∈ _get_class_needed_attributes cls ↔
  name ∈ cls_annotations cls ∧
  ∀ s, s ∈ omit_starting_sequences cls → String.prefix s name = false.
Proof.
  rewrite needed_attributes_filter, elem_of_filter_bool, must_inherit_true.
  by setoid_rewrite elem_of_elements.
Qed.

Lemma elem_of_omit_starting_sequences cls s :
  s ∈ omit_starting_sequences cls ↔
  ∃ name, s = mangle_prefix name ∧
          (name = cls_name cls ∨ ∃ x, x ∈ ancestors cls ∧ cls_name x = name).
Proof.
  unfold omit_starting_sequences. rewrite elem_of_map.
  setoid_rewrite elem_of_union. setoid_rewrite elem_of_singleton.
  setoid_rewrite elem_of_get_class_bases_names.
  split; intros (name & -> & H); exists name; (split; [done|]); tauto.
Qed.

Lemma mro_lookup_true name c :
  mro_lookup name c = true ↔
  name ∈ cls_dict c ∨ ∃ x, x ∈ ancestors c ∧ name ∈ cls_dict x.
Proof.
  induction c as [cname bases ann dict m IH] using class_ind'.
  cbn [mro_lookup cls_dict].
  rewrite orb_true_iff, bool_decide_eq_true, existsb_exists.
  apply or_iff_compat_l. rewrite Forall_forall in IH. split.
  - intros (b & Hb & Hl). apply list_elem_of_In in Hb.
    apply (IH b Hb) in Hl as [Hl|(x & Hx & Hl)].
    + exists b. split; [|done]. apply elem_of_ancestors. exists b. by split; [|left].
    + exists x. split; [|done]. apply elem_of_ancestors. exists b. by split; [|right].
  - intros (x & Hx & Hl). apply elem_of_ancestors in Hx as (b & Hb & Hx).
    simpl in Hb. exists b. split; [by apply list_elem_of_In|].
    apply (IH b Hb). destruct Hx as [->|Hx]; [by left|]. right. by exists x.
Qed.

Lemma mro_lookup_base name c b :
  b ∈ cls_bases c → mro_lookup name b = true → mro_lookup name c = true.
Proof.
  destruct c as [cname bases ann dict m]. cbn [cls_bases mro_lookup].
  intros Hb Hl. apply orb_true_iff. right. apply existsb_exists.
  exists b. split; [by apply list_elem_of_In | done].
Qed.

Lemma rooted_object c :
  rooted c = true →
  cls_name c = "object" ∨ ∃ x, x ∈ ancestors c ∧ cls_name x = "object".
Proof.
  induction c as [cname bases ann dict m IH] using class_ind'.
  cbn [rooted cls_name]. destruct bases as [|b bases].
  - intros H. left. by apply bool_decide_eq_true in H.
  - intros H. right. apply forallb_forall with (x := b) in H; [|by left].
    apply Forall_inv in IH. destruct (IH H) as [Hn|(x & Hx & Hn)].
    + exists b. split; [|done]. apply elem_of_ancestors. exists b. split; [left|by left].
    + exists x. split; [|done]. apply elem_of_ancestors. exists b. split; [left|by right].
Qed.

Lemma scan_bases_from bases first required :
  foldl (λ '(is_first_level_child, parent_required_attributes) parent_class,
           if bool_decide (cls_type parent_class = ABContainer)
           then (false, parent_required_attributes
                          ++ _get_class_needed_attributes parent_class)
           else (is_first_level_child, parent_required_attributes))
        (first, required) bases
  = (first && forallb (λ c, negb (participating c)) bases,
     required ++ required_of bases).
Proof.
  revert first required. unfold required_of, participating.
  induction bases as [|b bases IH]; intros first required; simpl.
  - by rewrite andb_true_r, app_nil_r.
  - destruct (bool_decide (cls_type b = ABContainer)); rewrite IH; simpl.
    + by rewrite andb_false_r, <- app_assoc.
    + done.
Qed.

Lemma scan_bases_eq bases :
  scan_bases bases
  = (forallb (λ c, negb (participating c)) bases, required_of bases).
Proof. unfold scan_bases. by rewrite scan_bases_from. Qed.

Lemma forallb_not_participating bases :
  forallb (λ c, negb (participating c)) bases = true ↔
  ∀ p, p ∈ bases → cls_type p ≠ ABContainer.
Proof.
  rewrite forallb_forall. unfold participating. split; intros H p Hp.
  - apply list_elem_of_In, H, negb_true_iff, bool_decide_eq_false in Hp. done.
  - apply negb_true_iff, bool_decide_eq_false, H. by apply list_elem_of_In.
Qed.

Lemma filter_nil_all {A} (p : A → bool) (l : list A) :
  List.filter p l = [] ↔ ∀ x, x ∈ l → p x = false.
Proof.
  induction l as [|y l IH]; simpl.
  - split; [|done]. intros _ x Hx. by apply elem_of_nil in Hx.
  - destruct (p y) eqn:E.
    + split; [done|]. intros H. rewrite (H y) in E by left. done.
    + rewrite IH. split.
      * intros H x Hx. apply elem_of_cons in Hx as [->|Hx]; [done|by apply H].
      * intros H x Hx. apply H. by right.
Qed.

(** ** Metaclasses *)


Lemma derives_from_refl m : derives_from m m = true.
Proof. apply bool_decide_eq_true. destruct m; cbn [supers]; by left. Qed.

Lemma derives_from_antisym m1 m2 :
  derives_from m1 m2 = true → derives_from m2 m1 = true → m1 = m2.
Proof.
  unfold derives_from. rewrite !bool_decide_eq_true.
  destruct m1, m2; cbn [supers]; intros H1 H2;
    repeat (apply elem_of_cons in H1 as [H1|H1]); try (by apply elem_of_nil in H1);
    repeat (apply elem_of_cons in H2 as [H2|H2]); try (by apply elem_of_nil in H2);
    congruence.
Qed.

(** With one base whose type the metaclass derives from, the most derived
    metaclass is the metaclass itself. *)
Lemma most_derived_single mcs c :
  derives_from mcs (cls_type c) = true → most_derived mcs [c] = mcs.
Proof.
  intros H. unfold most_derived. cbn [map List.find forallb].
  by rewrite derives_from_refl, H.
Qed.

(** Handing the construction over to the most derived metaclass builds the
    same class. *)
Lemma most_derived_idem mcs bases :
  most_derived (most_derived mcs bases) bases = most_derived mcs bases.
Proof.
  remember (most_derived mcs bases) as w eqn:Hw.
  unfold most_derived in Hw. cbv zeta in Hw.
  destruct (List.find _ (mcs :: map cls_type bases)) as [w'|] eqn:E;
    simpl in Hw; subst w.
  - apply find_some in E as [_ Hw]. cbn [forallb] in Hw.
    apply andb_true_iff in Hw as [_ Hw].
    unfold most_derived. cbn [List.find forallb].
    by rewrite derives_from_refl, Hw.
  - unfold most_derived. cbv zeta. by rewrite E.
Qed.

Lemma type_new_most_derived mcs what bases _dict :
  type_new (most_derived mcs bases) what bases _dict = type_new mcs what bases _dict.
Proof. unfold type_new. by rewrite most_derived_idem. Qed.

(** The most derived metaclass does not depend on the order of the
    bases. *)
Lemma most_derived_perm mcs bases bases' :
  bases ≡ₚ bases' → most_derived mcs bases = most_derived mcs bases'.
Proof.
  intros Hp. unfold most_derived. cbv zeta.
  set (l := mcs :: map cls_type bases). set (l' := mcs :: map cls_type bases').
  assert (Permutation l l') as Hl
    by (subst l l'; apply perm_skip, Permutation_map, Hp).
  assert (∀ w, forallb (derives_from w) l = forallb (derives_from w) l') as HP.
  { intros w. apply eq_true_iff_eq. rewrite !forallb_forall.
    split; intros H x Hx; apply H.
    - by apply (Permutation_in _ (Permutation_sym Hl)).
    - by apply (Permutation_in _ Hl). }
  destruct (List.find _ l) as [w|] eqn:E, (List.find _ l') as [w'|] eqn:E'; simpl.
  - apply find_some in E as [Hw HPw]. apply find_some in E' as [Hw' HPw'].
    apply derives_from_antisym.
    + rewrite forallb_forall in HPw. apply HPw.
      by apply (Permutation_in _ (Permutation_sym Hl)).
    + rewrite forallb_forall in HPw'. apply HPw'. by apply (Permutation_in _ Hl).
  - apply find_some in E as [Hw HPw].
    apply (Permutation_in _ Hl) in Hw.
    pose proof (find_none _ _ E' w Hw) as Hn. cbv beta in Hn.
    rewrite <- HP in Hn. congruence.
  - apply find_some in E' as [Hw' HPw'].
    apply (Permutation_in _ (Permutation_sym Hl)) in Hw'.
    pose proof (find_none _ _ E w' Hw') as Hn. cbv beta in Hn.
    rewrite HP in Hn. congruence.
  - done.
Qed.


(** ** Properties of class creation *)

Section Properties.

Variable builtin_attrs : metaclass → string → bool.

Lemma missing_requirements_filter cls required :
  missing_requirements builtin_attrs cls required
  = List.filter (λ r, negb (hasattr builtin_attrs cls r)) required.
Proof. unfold missing_requirements. by rewrite foldl_append_if. Qed.

(** [__new__] with its two loops written as filters. *)
Lemma new_eq mcs what bases _dict :
  __new__ builtin_attrs mcs what bases _dict
  = let cls := type_new mcs what bases _dict in
    if forallb (λ c, negb (participating c)) bases then
      match _get_class_needed_attributes cls with
      | [] => inl (empty_interface_error what)
      | _ :: _ => inr cls
      end
    else
      match List.filter (λ r, negb (hasattr builtin_attrs cls r)) (required_of bases) with
      | [] => inr cls
      | (_ :: _) as missing => inl (unmet_requirement_error what missing)
      end.
Proof.
  unfold __new__. rewrite scan_bases_eq, missing_requirements_filter. done.
Qed.

(** Called with the most derived metaclass, as a class statement calls it,
    or with another from which the interpreter hands over to that one,
    [__new__] gives the same result. *)
Lemma new_most_derived mcs what bases _dict :
  __new__ builtin_attrs (most_derived mcs bases) what bases _dict
  = __new__ builtin_attrs mcs what bases _dict.
Proof. unfold __new__. by rewrite type_new_most_derived. Qed.

(** C1.  A class with at least one direct participating ancestor that does
    not expose some name of the accumulated requirements is refused: the
    result is the [NameError] (the spec's UnmetRequirementError) whose
    message lists every required name the class does not expose, in the
    order the requirements were collected, joined by [", "]. *)
Theorem C1_unmet_requirements_all_listed mcs what bases _dict :
  let cls := type_new mcs what bases _dict in
  Exists (λ p, cls_type p = ABContainer) bases →
  Exists (λ name, hasattr builtin_attrs cls name = false) (required_of bases) →
  __new__ builtin_attrs mcs what bases _dict
  = inl (NameError
           ("Container " +:+ what +:+ " does not handle following attributes "
            +:+ String.concat ", "
                  (List.filter (λ name, negb (hasattr builtin_attrs cls name)) (required_of bases))
            +:+ ".")).
Proof.
  intros cls Hpart Hmiss. rewrite new_eq. cbv zeta. fold cls.
  destruct (forallb _ bases) eqn:Hroot.
  - rewrite forallb_not_participating in Hroot.
    apply Exists_exists in Hpart as (p & Hp & Ht). destruct (Hroot p Hp Ht).
  - destruct (List.filter _ (required_of bases)) as [|m ms] eqn:Hf; [|done].
    apply Exists_exists in Hmiss as (name & Hname & Hattr).
    rewrite filter_nil_all in Hf. specialize (Hf name Hname).
    simpl in Hf. rewrite Hattr in Hf. done.
Qed.

(** C2.  A class with no direct participating ancestor is refused with the
    [NameError] naming it (the spec's EmptyInterfaceError) when it has no
    required attribute, whatever its bases are, and is returned when it has
    one. *)
Theorem C2_root_needs_a_required_field mcs what bases _dict :
  let cls := type_new mcs what bases _dict in
  Forall (λ p, cls_type p ≠ ABContainer) bases →
  (_get_class_needed_attributes cls = [] →
   __new__ builtin_attrs mcs what bases _dict
   = inl (NameError ("Container " +:+ what +:+ " does not contain any required fields.")))
  ∧ (_get_class_needed_attributes cls ≠ [] →
     __new__ builtin_attrs mcs what bases _dict = inr cls).
Proof.
  intros cls Hroot. rewrite new_eq. cbv zeta. fold cls.
  rewrite Forall_forall, <- forallb_not_participating in Hroot.
  rewrite Hroot. split.
  - by intros ->.
  - intros Hne. by destruct (_get_class_needed_attributes cls).
Qed.

(** C3 (amended).  The first step of computing the required attributes
    of a class collects exactly the names annotated in the class's own
    body, in order: never the annotations of a base, and whether or not
    the body also assigns the name a value.  The required attributes are
    drawn from these names only. *)
Theorem C3_first_step_own_annotations mcs what bases _dict :
  let cls := type_new mcs what bases _dict in
  all_inherit_attributes cls = ns_annotations _dict
  ∧ (∀ bases' assigned',
       all_inherit_attributes
         (type_new mcs what bases' (Namespace (ns_annotations _dict) assigned'))
       = all_inherit_attributes cls)
  ∧ (∀ name, name ∈ _get_class_needed_attributes cls →
             name ∈ ns_annotations _dict).
Proof.
  intros cls. split; [done|]. split; [done|].
  intros name Hname. by apply elem_of_needed_attributes in Hname as [Hname _].
Qed.

(** C4 (amended).  For a class with two or more direct participating
    ancestors, the requirements checked are the required attributes of
    those ancestors put end to end in base order, a name required by two
    ancestors occurring twice.  Creation succeeds exactly when the class
    exposes every name some participating ancestor requires (one name, one
    requirement); a failure names the required names that are missing and
    no other, each as often as it is required. *)
Theorem C4_requirements_concatenated mcs what bases _dict :
  let cls := type_new mcs what bases _dict in
  let missing :=
    List.filter (λ name, negb (hasattr builtin_attrs cls name)) (required_of bases) in
  2 ≤ length (List.filter participating bases) →
  snd (scan_bases bases)
  = flat_map _get_class_needed_attributes (List.filter participating bases)
  ∧ (__new__ builtin_attrs mcs what bases _dict = inr cls ↔
     ∀ p name, p ∈ bases → cls_type p = ABContainer →
               name ∈ _get_class_needed_attributes p →
               hasattr builtin_attrs cls name = true)
  ∧ (∀ e, __new__ builtin_attrs mcs what bases _dict = inl e →
          e = unmet_requirement_error what missing)
  ∧ (∀ name, name ∈ missing ↔
             name ∈ required_of bases ∧ hasattr builtin_attrs cls name = false)
  ∧ (∀ name, hasattr builtin_attrs cls name = false →
             count_occ String.string_dec missing name
             = count_occ String.string_dec (required_of bases) name).
Proof.
  intros cls missing Htwo.
  assert (forallb (λ c, negb (participating c)) bases = false) as Hsub.
  { destruct (forallb _ bases) eqn:E; [|done].
    rewrite forallb_forall in E.
    destruct (List.filter participating bases) as [|p ps] eqn:Hf; [simpl in Htwo; lia|].
    assert (In p (List.filter participating bases)) as Hp by (rewrite Hf; left; done).
    apply filter_In in Hp as [Hp Ht]. apply E in Hp. by rewrite Ht in Hp. }
  assert (∀ name, name ∈ required_of bases ↔
            ∃ p, p ∈ bases ∧ cls_type p = ABContainer
                 ∧ name ∈ _get_class_needed_attributes p) as Hreq.
  { intros name. unfold required_of. rewrite elem_of_flat_map.
    split; intros (p & Hp & Hn); exists p.
    - apply elem_of_filter_bool in Hp as [Hp Ht].
      by apply bool_decide_eq_true in Ht.
    - destruct Hn as [Ht Hn]. split; [|done].
      apply elem_of_filter_bool. split; [done|]. by apply bool_decide_eq_true. }
  split; [by rewrite scan_bases_eq|].
  rewrite new_eq. cbv zeta. fold cls. rewrite Hsub. fold missing.
  split; [|split; [|split]].
  - split.
    + intros Hok p name Hp Ht Hn.
      destruct missing as [|m ms] eqn:Hm; [|done].
      subst missing. rewrite filter_nil_all in Hm.
      apply negb_false_iff, Hm, Hreq. by exists p.
    + intros Hall. replace missing with (@nil string); [done|].
      symmetry. apply filter_nil_all. intros name Hname.
      apply Hreq in Hname as (p & Hp & Ht & Hn).
      apply negb_false_iff. by apply (Hall p).
  - intros e He. destruct missing; by inversion He.
  - intros name. subst missing. rewrite elem_of_filter_bool, negb_true_iff. done.
  - intros name Hname. subst missing. clear Hreq.
    induction (required_of bases) as [|r rs IH]; [done|].
    simpl. destruct (hasattr builtin_attrs cls r) eqn:Hr; simpl.
    + destruct (String.string_dec r name) as [->|]; [congruence|apply IH].
    + destruct (String.string_dec r name); by rewrite IH.
Qed.

(** C5.  The exclusion prefixes of a class are exactly the prefixes
    [_Name__] for its own name and for the name of every class among its
    direct and transitively inherited bases (a set: one prefix per name),
    and a declared name is required exactly when it starts with none of
    them, so that every declared name starting with one is dropped. *)
Theorem C5_exclusion_prefixes cls :
  (∀ s, s ∈ omit_starting_sequences cls ↔
        ∃ name, s = "_" +:+ name +:+ "__" ∧
                (name = cls_name cls ∨ ∃ x, x ∈ ancestors cls ∧ cls_name x = name))
  ∧ (∀ name, name ∈ _get_class_needed_attributes cls ↔
             name ∈ cls_annotations cls ∧
             ∀ s, s ∈ omit_starting_sequences cls → String.prefix s name = false)
  ∧ (∀ name s, s ∈ omit_starting_sequences cls → String.prefix s name = true →
               name ∉ _get_class_needed_attributes cls).
Proof.
  split; [|split].
  - apply elem_of_omit_starting_sequences.
  - apply elem_of_needed_attributes.
  - intros name s Hs Hpre Hname.
    apply elem_of_needed_attributes in Hname as [_ Hname].
    rewrite (Hname s Hs) in Hpre. done.
Qed.

(** C7 (amended).  Let [root] be a root interface of type [ABContainer]
    and [parent] a class created as a direct subclass of it.  The
    requirements put on a subclass of [parent] are the required attributes
    of [parent] itself, the names [parent] annotates.  If each of them is
    bound in the namespace of [parent] or of one of its ancestors, then a
    subclass of [parent] is created successfully whatever its own body
    assigns, in particular when it assigns nothing; and it still exposes
    every required attribute of the root interface. *)
Theorem C7_grandchild_inherits_satisfied_fields
    rname rbases rdict root pname pdict parent what _dict :
  Forall (λ p, cls_type p ≠ ABContainer) rbases →
  __new__ builtin_attrs ABContainer rname rbases rdict = inr root →
  cls_type root = ABContainer →
  __new__ builtin_attrs ABContainer pname [root] pdict = inr parent →
  Forall (λ name, mro_lookup name parent = true) (required_of [parent]) →
  (∀ mcs, __new__ builtin_attrs mcs what [parent] _dict
          = inr (type_new mcs what [parent] _dict))
  ∧ (∀ name, name ∈ _get_class_needed_attributes root →
             hasattr builtin_attrs (type_new ABContainer what [parent] _dict) name
             = true).
Proof.
  intros _ _ Hrtype Hparent Hinh.
  rewrite new_eq in Hparent. cbv zeta in Hparent. cbn [forallb] in Hparent.
  unfold participating at 1 in Hparent.
  rewrite Hrtype, bool_decide_eq_true_2 in Hparent by done.
  cbn [negb andb] in Hparent.
  destruct (List.filter _ (required_of [root])) as [|m ms] eqn:Hmiss;
    [|by inversion Hparent].
  injection Hparent as Hp.
  assert (cls_type parent = ABContainer) as Hptype
    by (rewrite <- Hp; apply most_derived_single; by rewrite Hrtype).
  split.
  - intros mcs. rewrite new_eq. cbv zeta. cbn [forallb]. unfold participating at 1.
    rewrite Hptype, bool_decide_eq_true_2 by done. cbn [negb andb].
    replace (List.filter _ (required_of [parent])) with (@nil string); [done|].
    symmetry. apply filter_nil_all. intros name Hname.
    rewrite Forall_forall in Hinh. specialize (Hinh name Hname).
    apply negb_false_iff. unfold hasattr. apply orb_true_iff. left.
    apply (mro_lookup_base name _ parent); [by left | done].
  - intros name Hname. rewrite filter_nil_all in Hmiss.
    assert (name ∈ required_of [root]) as Hreq.
    { unfold required_of. cbn [List.filter]. unfold participating.
      rewrite Hrtype, bool_decide_eq_true_2 by done.
      cbn [flat_map]. by rewrite app_nil_r. }
    apply Hmiss, negb_false_iff in Hreq. rewrite Hp in Hreq.
    unfold hasattr in *. rewrite Hptype in Hreq.
    cbn [cls_type type_new]. rewrite (most_derived_single ABContainer parent)
      by (by rewrite Hptype).
    apply orb_true_iff in Hreq as [Hreq|Hreq]; apply orb_true_iff; [left|by right].
    apply (mro_lookup_base name _ parent); [by left | done].
Qed.

(** C8.  Classification looks at the direct bases only, and at their type
    only: the class is handled as a root interface exactly when no direct
    base has type [ABContainer] itself; otherwise it is checked against the
    required attributes of the direct bases of that type, and of no other
    class. *)
Theorem C8_classification_by_direct_bases mcs what bases _dict :
  let cls := type_new mcs what bases _dict in
  (fst (scan_bases bases) = true ↔ ∀ p, p ∈ bases → cls_type p ≠ ABContainer)
  ∧ snd (scan_bases bases)
    = flat_map _get_class_needed_attributes
        (List.filter (λ p, bool_decide (cls_type p = ABContainer)) bases)
  ∧ __new__ builtin_attrs mcs what bases _dict
    = if fst (scan_bases bases) then
        match _get_class_needed_attributes cls with
        | [] => inl (empty_interface_error what)
        | _ :: _ => inr cls
        end
      else
        match missing_requirements builtin_attrs cls (snd (scan_bases bases)) with
        | [] => inr cls
        | (_ :: _) as missing => inl (unmet_requirement_error what missing)
        end.
Proof.
  intros cls. rewrite scan_bases_eq. cbn [fst snd]. split; [|split].
  - apply forallb_not_participating.
  - done.
  - unfold __new__. rewrite scan_bases_eq. done.
Qed.


(** C10.  The walk over the bases of a class always reaches [object], so
    [_object__] is one of the exclusion prefixes of every class the
    metaclass creates, and an annotated name beginning with [_object__] is
    never required. *)
Theorem C10_object_prefix_always_excluded mcs what bases _dict :
  let cls := type_new mcs what bases _dict in
  Forall (λ b, rooted b = true) bases →
  "_object__" ∈ omit_starting_sequences cls
  ∧ (∀ name, String.prefix "_object__" name = true →
             name ∉ _get_class_needed_attributes cls).
Proof.
  intros cls Hrooted.
  assert ("_object__" ∈ omit_starting_sequences cls) as Hobj.
  { apply elem_of_omit_starting_sequences. exists "object". split; [done|]. right.
    destruct bases as [|b bases].
    - exists object. split; [|done]. apply elem_of_ancestors.
      exists object. split; [left|by left].
    - apply Forall_inv in Hrooted.
      destruct (rooted_object b Hrooted) as [Hn|(x & Hx & Hn)].
      + exists b. split; [|done]. apply elem_of_ancestors.
        exists b. split; [left|by left].
      + exists x. split; [|done]. apply elem_of_ancestors.
        exists b. split; [left|by right]. }
  split; [done|]. intros name Hpre Hname.
  apply elem_of_needed_attributes in Hname as [_ Hname].
  rewrite (Hname _ Hobj) in Hpre. done.
Qed.

End Properties.

(** ** Further properties of the ancestor walk *)

Lemma for_extend_mono rec rec' fuel :
  (∀ y r, rec y = Some r → rec' y = Some r) →
  ∀ fuel' i l out, fuel ≤ fuel' →
    for_extend rec fuel i l = Some out → for_extend rec' fuel' i l = Some out.
Proof.
  intros Hrec. induction fuel as [|fuel IH]; intros fuel' i l out Hle; [done|].
  destruct fuel' as [|fuel']; [lia|]. cbn [for_extend].
  destruct (l !! i) as [base|]; [|done].
  destruct (rec base) as [more|] eqn:E; [|done].
  rewrite (Hrec _ _ E). apply IH. lia.
Qed.

Lemma get_class_bases_fuel_mono fuel :
  ∀ fuel' c l, fuel ≤ fuel' →
    get_class_bases_fuel fuel c = Some l → get_class_bases_fuel fuel' c = Some l.
Proof.
  induction fuel as [|fuel IH]; intros fuel' c l Hle; [done|].
  destruct fuel' as [|fuel']; [lia|]. cbn [get_class_bases_fuel].
  apply for_extend_mono; [|lia]. intros y r. apply IH. lia.
Qed.

Lemma get_class_bases_walk c : __get_class_bases c = walk (S (height c)) c.
Proof.
  unfold __get_class_bases.
  by rewrite (get_class_bases_fuel_walk (S (height c))) by lia.
Qed.

Lemma levels_prefix R h l : l `prefix_of` levels R h l.
Proof. destruct h; simpl; [done|]. by apply prefix_app_r. Qed.

(** X1.  The walk of [__get_class_bases], whose loop extends the list it
    iterates over, returns for every class; and a bound on its iterations
    never changes what it returns: whenever the bounded walk returns a
    list, it is the list of [__get_class_bases], and every larger bound
    returns it too. *)
Theorem X1_walk_returns_and_bound_is_immaterial c :
  get_class_bases_fuel (walk_fuel (S (height c)) c) c = Some (__get_class_bases c)
  ∧ ∀ fuel l, get_class_bases_fuel fuel c = Some l →
      l = __get_class_bases c
      ∧ ∀ fuel', fuel ≤ fuel' → get_class_bases_fuel fuel' c = Some l.
Proof.
  assert (get_class_bases_fuel (walk_fuel (S (height c)) c) c
          = Some (__get_class_bases c)) as Hret
    by (rewrite get_class_bases_walk; apply get_class_bases_fuel_walk; lia).
  split; [done|]. intros fuel l Hl. split.
  - apply (get_class_bases_fuel_mono _ (fuel + walk_fuel (S (height c)) c)) in Hl; [|lia].
    apply (get_class_bases_fuel_mono _ (fuel + walk_fuel (S (height c)) c)) in Hret; [|lia].
    congruence.
  - intros fuel' Hle. by apply (get_class_bases_fuel_mono fuel).
Qed.

(** X2.  The set of names [_get_class_bases] returns is built from the
    direct bases: it is the union, over the direct bases, of the name of
    the base and the set returned for the base.  A class without bases
    gives the empty set. *)
Theorem X2_base_names_compose c :
  _get_class_bases c
  = ⋃ ((λ b, {[cls_name b]} ∪ _get_class_bases b) <$> cls_bases c)
  ∧ (cls_bases c = [] → _get_class_bases c = ∅).
Proof.
  assert (_get_class_bases c
          = ⋃ ((λ b, {[cls_name b]} ∪ _get_class_bases b) <$> cls_bases c)) as E.
  { apply set_eq. intros name.
    rewrite elem_of_get_class_bases_names, elem_of_union_list. split.
    - intros (x & Hx & Hn). apply elem_of_ancestors in Hx as (b & Hb & Hx).
      exists ({[cls_name b]} ∪ _get_class_bases b). split.
      + apply list_elem_of_fmap. by exists b.
      + apply elem_of_union. destruct Hx as [->|Hx].
        * left. by apply elem_of_singleton.
        * right. apply elem_of_get_class_bases_names. by exists x.
    - intros (X & HX & Hn). apply list_elem_of_fmap in HX as (b & -> & Hb).
      apply elem_of_union in Hn as [Hn|Hn].
      + apply elem_of_singleton in Hn. exists b. split; [|done].
        apply elem_of_ancestors. exists b. by split; [|left].
      + apply elem_of_get_class_bases_names in Hn as (x & Hx & Hn).
        exists x. split; [|done]. apply elem_of_ancestors. exists b. by split; [|right]. }
  split; [done|]. intros Hb. rewrite E, Hb. done.
Qed.

(** X3.  The list [__get_class_bases] returns starts with the direct bases
    in their order, what follows are classes further up; every class in it
    stands strictly higher in the inheritance tree, so the class itself is
    never in its own list. *)
Theorem X3_walk_starts_with_direct_bases c :
  cls_bases c `prefix_of` __get_class_bases c
  ∧ (∀ x, x ∈ __get_class_bases c → height x < height c)
  ∧ c ∉ __get_class_bases c.
Proof.
  assert (∀ x, x ∈ __get_class_bases c → height x < height c) as Hh
    by (intros x Hx; by apply ancestors_height, elem_of_get_class_bases).
  split; [|split; [done|]].
  - rewrite get_class_bases_walk. cbn [walk]. apply levels_prefix.
  - intros Hc. apply Hh in Hc. lia.
Qed.

(** X4.  Exclusion prefixes are inherited: every prefix excluded for an
    ancestor is excluded for the class, so a name that starts with a
    prefix of an ancestor is never a required attribute of the class, even
    when the class annotates it itself. *)
Theorem X4_ancestor_prefixes_are_inherited c a :
  a ∈ ancestors c →
  omit_starting_sequences a ⊆ omit_starting_sequences c
  ∧ ∀ name s, s ∈ omit_starting_sequences a → String.prefix s name = true →
              name ∉ _get_class_needed_attributes c.
Proof.
  intros Ha.
  assert (omit_starting_sequences a ⊆ omit_starting_sequences c) as Hsub.
  { intros s Hs. apply elem_of_omit_starting_sequences in Hs as (name & -> & Hn).
    apply elem_of_omit_starting_sequences. exists name. split; [done|]. right.
    destruct Hn as [->|(x & Hx & Hn)].
    - by exists a.
    - exists x. split; [|done]. by apply (ancestors_trans _ a). }
  split; [done|]. intros name s Hs Hpre Hname.
  apply elem_of_needed_attributes in Hname as [_ Hname].
  rewrite (Hname s (Hsub s Hs)) in Hpre. done.
Qed.

Lemma filter_bool_sublist {A} (p : A → bool) (l : list A) :
  List.filter p l `sublist_of` l.
Proof.
  induction l as [|x l IH]; simpl; [done|].
  destruct (p x); [by apply sublist_skip | by apply sublist_cons].
Qed.

(** X5.  The required attributes of a class are its annotated names with
    some left out: they come in the order of the annotations, no name is
    added, and no name is repeated unless the annotations repeat it. *)
Theorem X5_needed_attributes_keep_order c :
  _get_class_needed_attributes c `sublist_of` cls_annotations c
  ∧ (NoDup (cls_annotations c) → NoDup (_get_class_needed_attributes c)).
Proof.
  assert (_get_class_needed_attributes c `sublist_of` cls_annotations c) as Hsub
    by (rewrite needed_attributes_filter; apply filter_bool_sublist).
  split; [done|]. intros Hnd. by eapply sublist_NoDup.
Qed.

(** X6.  The inner loop of [_get_class_needed_attributes], which leaves at
    the first prefix that matches, gives the same answer for any two
    enumerations of the same prefixes: the order in which the set is
    iterated, and repetitions, do not matter. *)
Theorem X6_prefix_iteration_order_immaterial attribute seqs seqs' :
  (∀ s, s ∈ seqs ↔ s ∈ seqs') →
  must_inherit attribute seqs = must_inherit attribute seqs'.
Proof.
  intros Hsame. apply eq_true_iff_eq. rewrite !must_inherit_true.
  split; intros H s Hs; apply H, Hsame, Hs.
Qed.

(** ** Further properties of class creation *)

Lemma append_inj_r (s a b : string) : s +:+ a = s +:+ b → a = b.
Proof.
  induction s as [|ch s IH]; simpl; [done|]. intros H. apply IH. by injection H.
Qed.

Lemma elem_of_required_of bases name :
  name ∈ required_of bases ↔
  ∃ p, p ∈ bases ∧ cls_type p = ABContainer ∧ name ∈ _get_class_needed_attributes p.
Proof.
  unfold required_of. rewrite elem_of_flat_map.
  split; intros (p & Hp & Hn); exists p.
  - apply elem_of_filter_bool in Hp as [Hp Ht]. by apply bool_decide_eq_true in Ht.
  - destruct Hn as [Ht Hn]. split; [|done].
    apply elem_of_filter_bool. split; [done|]. by apply bool_decide_eq_true.
Qed.

(** The required attributes depend on a class through its annotations, its
    name and the names of its ancestors only. *)
Lemma needed_attributes_ext c c' :
  cls_annotations c = cls_annotations c' →
  cls_name c = cls_name c' →
  (∀ name, (∃ x, x ∈ ancestors c ∧ cls_name x = name)
           ↔ (∃ x, x ∈ ancestors c' ∧ cls_name x = name)) →
  _get_class_needed_attributes c = _get_class_needed_attributes c'.
Proof.
  intros Hann Hname Hanc. rewrite !needed_attributes_filter, Hann.
  replace (omit_starting_sequences c') with (omit_starting_sequences c); [done|].
  apply set_eq. intros s. rewrite !elem_of_omit_starting_sequences.
  split; intros (name & -> & H); exists name; (split; [done|]).
  - destruct H as [->|H]; [by left|]. right. by apply Hanc.
  - destruct H as [->|H]; [left; congruence|]. right. by apply Hanc.
Qed.

Lemma type_new_bases_perm mcs mcs' what what' bases bases' d d' :
  bases ≡ₚ bases' →
  cls_bases (type_new mcs what bases d) ≡ₚ cls_bases (type_new mcs' what' bases' d').
Proof.
  intros Hp. destruct bases as [|b bases], bases' as [|b' bases']; cbn; try done.
  - by apply Permutation_nil_cons in Hp.
  - symmetry in Hp. by apply Permutation_nil_cons in Hp.
Qed.

Lemma ancestors_bases_perm c c' x :
  cls_bases c ≡ₚ cls_bases c' → x ∈ ancestors c ↔ x ∈ ancestors c'.
Proof.
  intros Hp. rewrite !elem_of_ancestors.
  split; intros (b & Hb & Hx); exists b; (split; [|done]).
  - by rewrite <- Hp.
  - by rewrite Hp.
Qed.

Lemma mro_lookup_bases_perm name c c' :
  cls_dict c = cls_dict c' → cls_bases c ≡ₚ cls_bases c' →
  mro_lookup name c = mro_lookup name c'.
Proof.
  intros Hd Hp. apply eq_true_iff_eq. rewrite !mro_lookup_true, Hd.
  apply or_iff_compat_l.
  split; intros (x & Hx & Hn); exists x; (split; [|done]);
    by apply (ancestors_bases_perm c c').
Qed.

Section FurtherProperties.

Variable builtin_attrs : metaclass → string → bool.

Lemma new_returns_built_class mcs what bases _dict c :
  __new__ builtin_attrs mcs what bases _dict = inr c →
  c = type_new mcs what bases _dict.
Proof.
  rewrite new_eq. cbv zeta. intros Hok.
  destruct (forallb _ bases);
    [destruct (_get_class_needed_attributes _)
    |destruct (List.filter _ (required_of bases))];
    by inversion Hok.
Qed.

Lemma new_accepted_exposes mcs what bases _dict c p name :
  __new__ builtin_attrs mcs what bases _dict = inr c →
  p ∈ bases → cls_type p = ABContainer →
  name ∈ _get_class_needed_attributes p →
  hasattr builtin_attrs c name = true.
Proof.
  intros Hok Hp Ht Hn. pose proof (new_returns_built_class _ _ _ _ _ Hok) as ->.
  rewrite new_eq in Hok. cbv zeta in Hok.
  destruct (forallb _ bases) eqn:Hroot.
  - rewrite forallb_not_participating in Hroot. destruct (Hroot p Hp Ht).
  - destruct (List.filter _ (required_of bases)) as [|m ms] eqn:Hmiss; [|done].
    rewrite filter_nil_all in Hmiss. apply negb_false_iff, Hmiss.
    apply elem_of_required_of. by exists p.
Qed.

(** X7.  A class [__new__] returns exposes every required attribute of
    each of its direct participating bases, however many there are; and
    the class returned is the one [super().__new__] built, unchanged. *)
Theorem X7_accepted_class_exposes_requirements mcs what bases _dict c :
  __new__ builtin_attrs mcs what bases _dict = inr c →
  c = type_new mcs what bases _dict
  ∧ ∀ p name, p ∈ bases → cls_type p = ABContainer →
              name ∈ _get_class_needed_attributes p →
              hasattr builtin_attrs c name = true.
Proof.
  intros Hok. split; [by apply new_returns_built_class|].
  intros p name. by apply (new_accepted_exposes mcs what bases _dict).
Qed.

(** X8.  Line 29 taken as returning, an error [__new__] raises tells
    which check failed.  It is the error about required fields only when
    no direct base participates and the class has no required attribute;
    otherwise it is the error about unhandled attributes, some direct
    base participates, and the error lists the missing requirements, of
    which there is at least one.  For one class name the two errors are
    different exceptions. *)
Theorem X8_error_identifies_failed_check mcs what bases _dict :
  let cls := type_new mcs what bases _dict in
  let missing :=
    List.filter (λ name, negb (hasattr builtin_attrs cls name)) (required_of bases) in
  (∀ e, __new__ builtin_attrs mcs what bases _dict = inl e →
        (e = empty_interface_error what
         ∧ (∀ p, p ∈ bases → cls_type p ≠ ABContainer)
         ∧ _get_class_needed_attributes cls = [])
        ∨ (e = unmet_requirement_error what missing
           ∧ missing ≠ []
           ∧ Exists (λ p, cls_type p = ABContainer) bases))
  ∧ ∀ names, empty_interface_error what ≠ unmet_requirement_error what names.
Proof.
  intros cls missing. split.
  - intros e. rewrite new_eq. cbv zeta. fold cls. fold missing.
    destruct (forallb _ bases) eqn:Hroot.
    + destruct (_get_class_needed_attributes cls) eqn:Hn; [|done].
      intros [= <-]. left. by rewrite forallb_not_participating in Hroot.
    + destruct missing as [|m ms] eqn:Hmiss; [done|].
      intros [= <-]. right. split; [done|]. split; [done|].
      apply Exists_exists.
      destruct (decide (Exists (λ p, cls_type p = ABContainer) bases)) as [H|H];
        [by apply Exists_exists in H|].
      apply not_Exists_Forall in H; [|solve_decision].
      rewrite Forall_forall in H.
      assert (forallb (λ c, negb (participating c)) bases = true) as Ht
        by (by apply forallb_not_participating).
      congruence.
  - intros names H. unfold empty_interface_error, unmet_requirement_error in H.
    injection H as H. do 2 apply append_inj_r in H. by simpl in H.
Qed.

(** X9.  With a direct participating base, the check does not read the
    annotations of the new class: two class bodies that assign the same
    names fail alike, with the same error, whatever they annotate.  With
    no direct participating base, it does not read the assignments: two
    bodies with the same annotations fail alike. *)
Theorem X9_each_check_reads_one_half_of_the_body mcs what bases :
  (Exists (λ p, cls_type p = ABContainer) bases →
   ∀ ann ann' asg e,
     __new__ builtin_attrs mcs what bases (Namespace ann asg) = inl e ↔
     __new__ builtin_attrs mcs what bases (Namespace ann' asg) = inl e)
  ∧ (Forall (λ p, cls_type p ≠ ABContainer) bases →
     ∀ ann asg asg' e,
       __new__ builtin_attrs mcs what bases (Namespace ann asg) = inl e ↔
       __new__ builtin_attrs mcs what bases (Namespace ann asg') = inl e).
Proof.
  split.
  - intros Hsub ann ann' asg e. rewrite !new_eq. cbv zeta.
    destruct (forallb _ bases) eqn:Hroot.
    { rewrite forallb_not_participating in Hroot.
      apply Exists_exists in Hsub as (p & Hp & Ht). destruct (Hroot p Hp Ht). }
    change (List.filter
              (λ r, negb (hasattr builtin_attrs
                            (type_new mcs what bases (Namespace ann' asg)) r))
              (required_of bases))
      with (List.filter
              (λ r, negb (hasattr builtin_attrs
                            (type_new mcs what bases (Namespace ann asg)) r))
              (required_of bases)).
    by destruct (List.filter _ (required_of bases)).
  - intros Hroot ann asg asg' e. rewrite !new_eq. cbv zeta.
    rewrite Forall_forall, <- forallb_not_participating in Hroot. rewrite Hroot.
    rewrite (needed_attributes_ext
               (type_new mcs what bases (Namespace ann asg'))
               (type_new mcs what bases (Namespace ann asg))) by done.
    by destruct (_get_class_needed_attributes _).
Qed.

(** X10.  Assigning more never hurts: when a class body is accepted, a
    body with the same annotations and the same slots that assigns at
    least the same names is accepted too (line 29 taken as returning for
    both). *)
Theorem X10_more_assignments_never_hurt mcs what bases _dict _dict' :
  ns_annotations _dict = ns_annotations _dict' →
  ns_slots _dict = ns_slots _dict' →
  (∀ name, name ∈ ns_assigned _dict → name ∈ ns_assigned _dict') →
  __new__ builtin_attrs mcs what bases _dict = inr (type_new mcs what bases _dict) →
  __new__ builtin_attrs mcs what bases _dict'
  = inr (type_new mcs what bases _dict').
Proof.
  intros Hann Hslots Hasg. rewrite !new_eq. cbv zeta.
  destruct (forallb _ bases).
  - rewrite (needed_attributes_ext
               (type_new mcs what bases _dict') (type_new mcs what bases _dict))
      by done.
    by destruct (_get_class_needed_attributes _).
  - destruct (List.filter _ (required_of bases)) as [|m ms] eqn:Hmiss; [|done].
    intros _. replace (List.filter _ (required_of bases)) with (@nil string); [done|].
    symmetry. apply filter_nil_all. intros name Hname.
    rewrite filter_nil_all in Hmiss. specialize (Hmiss name Hname).
    apply negb_false_iff in Hmiss. apply negb_false_iff.
    unfold hasattr in *. apply orb_true_iff in Hmiss as [Hmiss|Hmiss];
      apply orb_true_iff; [left|by right].
    apply mro_lookup_true in Hmiss. apply mro_lookup_true.
    destruct Hmiss as [Hmiss|Hmiss]; [left | by right].
    cbn [type_new cls_dict] in *. unfold implicit_names in *.
    rewrite <- Hslots. apply elem_of_app in Hmiss as [Hmiss|Hmiss];
      apply elem_of_app; [left; by apply Hasg | by right].
Qed.

(** X11.  Whether a class is accepted does not depend on the order in
    which its bases are listed. *)
Theorem X11_base_order_immaterial mcs what bases bases' _dict :
  bases ≡ₚ bases' →
  __new__ builtin_attrs mcs what bases _dict = inr (type_new mcs what bases _dict) ↔
  __new__ builtin_attrs mcs what bases' _dict = inr (type_new mcs what bases' _dict).
Proof.
  intros Hp.
  assert (cls_bases (type_new mcs what bases _dict)
          ≡ₚ cls_bases (type_new mcs what bases' _dict)) as Hcb
    by (by apply type_new_bases_perm).
  assert (forallb (λ c, negb (participating c)) bases
          = forallb (λ c, negb (participating c)) bases') as Hroot.
  { apply eq_true_iff_eq. rewrite !forallb_not_participating.
    split; intros H p Hin; apply H; [by rewrite Hp | by rewrite <- Hp]. }
  assert (_get_class_needed_attributes (type_new mcs what bases _dict)
          = _get_class_needed_attributes (type_new mcs what bases' _dict)) as Hneed.
  { apply needed_attributes_ext; [done..|]. intros name.
    split; intros (x & Hx & Hn); exists x; (split; [|done]);
      by apply (ancestors_bases_perm _ _ x Hcb). }
  assert (∀ name, hasattr builtin_attrs (type_new mcs what bases _dict) name
                  = hasattr builtin_attrs (type_new mcs what bases' _dict) name) as Hattr.
  { intros name. unfold hasattr.
    rewrite (mro_lookup_bases_perm name _ (type_new mcs what bases' _dict)) by done.
    f_equal. cbn [cls_type type_new]. by rewrite (most_derived_perm mcs bases bases'). }
  assert (List.filter (λ r, negb (hasattr builtin_attrs
                                    (type_new mcs what bases _dict) r))
            (required_of bases) = []
          ↔ List.filter (λ r, negb (hasattr builtin_attrs
                                      (type_new mcs what bases' _dict) r))
              (required_of bases') = []) as Hmiss.
  { rewrite !filter_nil_all.
    split; intros H name Hname; [rewrite <- Hattr | rewrite Hattr]; apply H;
      apply elem_of_required_of in Hname as (p & Hin & Ht & Hn);
      apply elem_of_required_of; exists p; (split; [|done]);
      [by rewrite Hp | by rewrite <- Hp]. }
  rewrite !new_eq. cbv zeta. rewrite <- Hroot, <- Hneed.
  destruct (forallb _ bases).
  - by destruct (_get_class_needed_attributes _).
  - destruct (List.filter _ (required_of bases)) as [|m ms] eqn:E1;
      destruct (List.filter _ (required_of bases')) as [|m' ms'] eqn:E2;
      try done.
    + destruct Hmiss as [Hmiss _]. by specialize (Hmiss eq_refl).
    + destruct Hmiss as [_ Hmiss]. by specialize (Hmiss eq_refl).
Qed.


End FurtherProperties.

(** ** Worked examples *)

Example docstring_interface :
  __new__ sample_builtin_attrs ABContainer "ContainerClassInterface" []
    (Namespace ["field_that_must_be_inherited";
                "_also_inherit_private_single_dash";
                "_ContainerClassInterface__omit_this_field"] [])
  = inr ContainerClassInterface
  ∧ _get_class_needed_attributes ContainerClassInterface
    = ["field_that_must_be_inherited"; "_also_inherit_private_single_dash"].
Proof. split; vm_compute; reflexivity. Qed.

Example docstring_subclass_A :
  __new__ sample_builtin_attrs ABContainer "ContainerSubclassA"
    [ContainerClassInterface]
    (Namespace [] ["field_that_must_be_inherited";
                   "_also_inherit_private_single_dash"])
  = inr ContainerSubclassA.
Proof. vm_compute; reflexivity. Qed.

Example docstring_subclass_AA :
  __new__ sample_builtin_attrs ABContainer "ContainerSubclassAA"
    [ContainerSubclassA] (Namespace [] [])
  = inr ContainerSubclassAA.
Proof. vm_compute; reflexivity. Qed.

Example docstring_subclass_B :
  __new__ sample_builtin_attrs ABContainer "ContainerSubclassB"
    [ContainerClassInterface] (Namespace [] [])
  = inl (NameError "Container ContainerSubclassB does not handle following attributes field_that_must_be_inherited, _also_inherit_private_single_dash.").
Proof. vm_compute; reflexivity. Qed.

(** The walk from [ContainerSubclassAA], with the repetitions the loop
    produces, and the fuel it is run with. *)
Example walk_subclass_AA :
  map cls_name (__get_class_bases ContainerSubclassAA)
  = ["ContainerSubclassA"; "ContainerClassInterface"; "object"; "object"]
  ∧ get_class_bases_fuel 5 ContainerSubclassAA = None
  ∧ get_class_bases_fuel 6 ContainerSubclassAA
    = Some (__get_class_bases ContainerSubclassAA).
Proof. repeat split; vm_compute; reflexivity. Qed.

(** *** C1 *)

Lemma C1_witness :
  Exists (λ p, cls_type p = ABContainer) [ContainerClassInterface]
  ∧ Exists (λ name,
              hasattr sample_builtin_attrs
                (type_new ABContainer "ContainerSubclassB"
                   [ContainerClassInterface] (Namespace [] [])) name = false)
           (required_of [ContainerClassInterface])
  ∧ __new__ sample_builtin_attrs ABContainer "ContainerSubclassB"
      [ContainerClassInterface] (Namespace [] [])
    = inl (NameError "Container ContainerSubclassB does not handle following attributes field_that_must_be_inherited, _also_inherit_private_single_dash.").
Proof.
  assert (Exists (λ p, cls_type p = ABContainer) [ContainerClassInterface]) as H1
    by (apply Exists_cons_hd; reflexivity).
  assert (Exists (λ name,
              hasattr sample_builtin_attrs
                (type_new ABContainer "ContainerSubclassB"
                   [ContainerClassInterface] (Namespace [] [])) name = false)
           (required_of [ContainerClassInterface])) as H2
    by (vm_compute; apply Exists_cons_hd; reflexivity).
  split; [exact H1|]. split; [exact H2|].
  exact (C1_unmet_requirements_all_listed sample_builtin_attrs ABContainer
           "ContainerSubclassB" [ContainerClassInterface] (Namespace [] []) H1 H2).
Defined.

(** *** C2 *)

Lemma C2_witness :
  Forall (λ p, cls_type p ≠ ABContainer) [PlainBase]
  ∧ _get_class_needed_attributes
      (type_new ABContainer "Empty" [PlainBase] (Namespace [] ["y"])) = []
  ∧ __new__ sample_builtin_attrs ABContainer "Empty" [PlainBase] (Namespace [] ["y"])
    = inl (NameError "Container Empty does not contain any required fields.").
Proof.
  assert (Forall (λ p, cls_type p ≠ ABContainer) [PlainBase]) as H
    by (constructor; [discriminate | constructor]).
  assert (_get_class_needed_attributes
            (type_new ABContainer "Empty" [PlainBase] (Namespace [] ["y"])) = [])
    as Hempty by (vm_compute; reflexivity).
  split; [exact H|]. split; [exact Hempty|].
  exact (proj1 (C2_root_needs_a_required_field sample_builtin_attrs ABContainer
                  "Empty" [PlainBase] (Namespace [] ["y"]) H) Hempty).
Defined.

(** *** C3 *)

(** [class X(metaclass=ABContainer): a: Any = 1] -- the name [a] carries a
    value and is collected, and required, all the same. *)
Lemma C3_counterexample :
  let _dict := Namespace ["a"] ["a"] in
  let cls := type_new ABContainer "X" [] _dict in
  "a" ∈ ns_assigned _dict
  ∧ all_inherit_attributes cls = ["a"]
  ∧ _get_class_needed_attributes cls = ["a"]
  ∧ ¬ (∀ name, name ∈ all_inherit_attributes cls → name ∉ ns_assigned _dict).
Proof.
  cbv zeta. split; [apply list_elem_of_here|].
  split; [reflexivity|]. split; [vm_compute; reflexivity|].
  intros H. apply (H "a"); apply list_elem_of_here.
Qed.

(** *** C4 *)

(** [class C(A, B): b = 1] -- both bases require [a]; the requirement is
    checked twice and reported twice. *)
Lemma C4_counterexample :
  2 ≤ length (List.filter participating [RootA; RootB])
  ∧ snd (scan_bases [RootA; RootB]) = ["a"; "a"; "b"]
  ∧ ¬ NoDup (snd (scan_bases [RootA; RootB]))
  ∧ __new__ sample_builtin_attrs ABContainer "C" [RootA; RootB] (Namespace [] ["b"])
    = inl (NameError "Container C does not handle following attributes a, a.").
Proof.
  assert (snd (scan_bases [RootA; RootB]) = ["a"; "a"; "b"]) as E
    by (vm_compute; reflexivity).
  split; [vm_compute; lia|]. split; [exact E|]. split.
  - rewrite E. intros H. apply NoDup_cons in H as [H _]. apply H, list_elem_of_here.
  - vm_compute; reflexivity.
Qed.

Lemma C4_witness :
  2 ≤ length (List.filter participating [RootA; RootB])
  ∧ snd (scan_bases [RootA; RootB]) = ["a"; "a"; "b"]
  ∧ ∀ e, __new__ sample_builtin_attrs ABContainer "C" [RootA; RootB]
           (Namespace [] ["b"]) = inl e →
         e = unmet_requirement_error "C" ["a"; "a"].
Proof.
  assert (2 ≤ length (List.filter participating [RootA; RootB])) as H
    by (vm_compute; lia).
  pose proof (C4_requirements_concatenated sample_builtin_attrs ABContainer "C"
                [RootA; RootB] (Namespace [] ["b"]) H) as (Hscan & _ & Herr & _).
  split; [exact H|]. split; [rewrite Hscan; vm_compute; reflexivity|].
  intros e He. rewrite (Herr e He). vm_compute; reflexivity.
Defined.

(** *** C6 *)

(** C6 (defect in the code).  The check of line 42 also passes for a
    name that only the metaclass supplies.  [class X(metaclass=ABContainer):
    _get_class_bases: Any] requires [_get_class_bases]; [class Y(X): pass]
    assigns nothing and no base binds the name, yet [hasattr] finds the
    static method of the metaclass and [Y] is accepted -- whatever names
    the interpreter's own objects supply. *)
Theorem C6_metaclass_attribute_passes_check :
  ∀ builtin_attrs : metaclass → string → bool,
    let Y := type_new ABContainer "Y" [NamesAStaticMethod] (Namespace [] []) in
    __new__ builtin_attrs ABContainer "X" [] (Namespace ["_get_class_bases"] [])
    = inr NamesAStaticMethod
    ∧ required_of [NamesAStaticMethod] = ["_get_class_bases"]
    ∧ mro_lookup "_get_class_bases" Y = false
    ∧ hasattr builtin_attrs Y "_get_class_bases" = true
    ∧ __new__ builtin_attrs ABContainer "Y" [NamesAStaticMethod] (Namespace [] [])
      = inr Y.
Proof. intros builtin_attrs. cbv zeta. repeat split; vm_compute; reflexivity. Qed.

(** *** C7 *)

(** [class Root(metaclass=ABContainer): a: Any], then
    [class Mid(Root): a = 1; z: Any] and [class Leaf(Mid): pass] -- [Mid]
    is a valid subclass of the root interface and [Leaf] inherits [a] from
    it, yet [Leaf] is refused: [Mid] annotates [z] and so requires it. *)
Lemma C7_counterexample :
  __new__ sample_builtin_attrs ABContainer "Root" [] (Namespace ["a"] []) = inr Root7
  ∧ __new__ sample_builtin_attrs ABContainer "Mid" [Root7] (Namespace ["z"] ["a"])
    = inr Mid7
  ∧ Forall (λ name, mro_lookup name Mid7 = true) (_get_class_needed_attributes Root7)
  ∧ __new__ sample_builtin_attrs ABContainer "Leaf" [Mid7] (Namespace [] [])
    = inl (NameError "Container Leaf does not handle following attributes z.").
Proof.
  split; [vm_compute; reflexivity|]. split; [vm_compute; reflexivity|].
  split; [|vm_compute; reflexivity].
  replace (_get_class_needed_attributes Root7) with ["a"] by (vm_compute; reflexivity).
  constructor; [reflexivity | constructor].
Qed.

Lemma C7_witness :
  Forall (λ p, cls_type p ≠ ABContainer) []
  ∧ __new__ sample_builtin_attrs ABContainer "Root" [] (Namespace ["a"] []) = inr Root7
  ∧ cls_type Root7 = ABContainer
  ∧ __new__ sample_builtin_attrs ABContainer "Parent" [Root7]
      (Namespace ["z"] ["a"; "z"]) = inr Parent7
  ∧ required_of [Parent7] = ["z"]
  ∧ Forall (λ name, mro_lookup name Parent7 = true) (required_of [Parent7])
  ∧ __new__ sample_builtin_attrs ABContainer "Child" [Parent7] (Namespace [] [])
    = inr (type_new ABContainer "Child" [Parent7] (Namespace [] [])).
Proof.
  assert (Forall (λ p, cls_type p ≠ ABContainer) []) as H0 by constructor.
  assert (__new__ sample_builtin_attrs ABContainer "Root" [] (Namespace ["a"] [])
          = inr Root7) as H1 by (vm_compute; reflexivity).
  assert (cls_type Root7 = ABContainer) as Ht by reflexivity.
  assert (__new__ sample_builtin_attrs ABContainer "Parent" [Root7]
            (Namespace ["z"] ["a"; "z"]) = inr Parent7) as H2
    by (vm_compute; reflexivity).
  assert (required_of [Parent7] = ["z"]) as H3 by (vm_compute; reflexivity).
  assert (Forall (λ name, mro_lookup name Parent7 = true) (required_of [Parent7]))
    as H4 by (rewrite H3; constructor; [reflexivity | constructor]).
  repeat (split; [assumption|]).
  exact (proj1 (C7_grandchild_inherits_satisfied_fields sample_builtin_attrs
                  "Root" [] (Namespace ["a"] []) Root7
                  "Parent" (Namespace ["z"] ["a"; "z"]) Parent7
                  "Child" (Namespace [] []) H0 H1 Ht H2 H4) ABContainer).
Defined.

(** *** C8 *)

Example derived_metaclass_base_not_participating :
  fst (scan_bases [ViaDerivedMeta]) = true
  ∧ __new__ sample_builtin_attrs (DerivedMeta "M") "Q" [ViaDerivedMeta]
      (Namespace [] [])
    = inl (NameError "Container Q does not contain any required fields.").
Proof. split; vm_compute; reflexivity. Qed.

(** *** C9 *)


(** A root interface built on a class whose metaclass derives from
    [ABContainer] gets that metaclass, whichever metaclass [__new__] is
    called with; it is then no participating base, and a subclass of it
    that assigns its fields is handled as a root interface and refused. *)
Example root_of_derived_metaclass_is_not_participating :
  __new__ sample_builtin_attrs ABContainer "Root" [ViaDerivedMeta]
    (Namespace ["a"; "b"] []) = inr RootViaDerivedMeta
  ∧ cls_type RootViaDerivedMeta = DerivedMeta "M"
  ∧ __new__ sample_builtin_attrs ABContainer "Sub" [RootViaDerivedMeta]
      (Namespace [] ["a"; "b"])
    = inl (NameError "Container Sub does not contain any required fields.").
Proof. repeat split; vm_compute; reflexivity. Qed.

(** *** C10 *)

Lemma C10_witness :
  Forall (λ b, rooted b = true) [ContainerSubclassA]
  ∧ "_object__" ∈ omit_starting_sequences ContainerSubclassAA
  ∧ ∀ name, String.prefix "_object__" name = true →
            name ∉ _get_class_needed_attributes ContainerSubclassAA.
Proof.
  assert (Forall (λ b, rooted b = true) [ContainerSubclassA]) as H
    by (constructor; [reflexivity | constructor]).
  split; [exact H|].
  exact (C10_object_prefix_always_excluded ABContainer "ContainerSubclassAA"
           [ContainerSubclassA] (Namespace [] []) H).
Defined.

(** [class O(metaclass=ABContainer): _object__x: Any] -- its only
    annotation starts with [_object__], so nothing is required and the
    class is refused as an empty interface. *)
Example object_prefix_field_not_required :
  _get_class_needed_attributes
    (type_new ABContainer "O" [] (Namespace ["_object__x"] [])) = []
  ∧ __new__ sample_builtin_attrs ABContainer "O" [] (Namespace ["_object__x"] [])
    = inl (NameError "Container O does not contain any required fields.").
Proof. split; vm_compute; reflexivity. Qed.

(** *** X4 *)

Lemma X4_witness :
  ContainerClassInterface ∈ ancestors ContainerSubclassAA
  ∧ omit_starting_sequences ContainerClassInterface
    ⊆ omit_starting_sequences ContainerSubclassAA
  ∧ "_ContainerClassInterface__omit_this_field"
    ∉ _get_class_needed_attributes ContainerSubclassAA.
Proof.
  assert (ContainerClassInterface ∈ ancestors ContainerSubclassAA) as H
    by (apply list_elem_of_further, list_elem_of_here).
  pose proof (X4_ancestor_prefixes_are_inherited
                ContainerSubclassAA ContainerClassInterface H) as [Hsub Hdrop].
  split; [exact H|]. split; [exact Hsub|].
  apply (Hdrop _ "_ContainerClassInterface__"); [|reflexivity].
  apply elem_of_omit_starting_sequences.
  exists "ContainerClassInterface". split; [reflexivity | by left].
Defined.

(** *** X6 *)

Lemma X6_witness :
  (∀ s, s ∈ ["_A__"; "_B__"] ↔ s ∈ ["_B__"; "_A__"; "_A__"])
  ∧ must_inherit "_B__x" ["_A__"; "_B__"]
    = must_inherit "_B__x" ["_B__"; "_A__"; "_A__"].
Proof.
  assert (∀ s : string, s ∈ ["_A__"; "_B__"] ↔ s ∈ ["_B__"; "_A__"; "_A__"]) as H
    by (intros s; rewrite !elem_of_cons, !elem_of_nil; tauto).
  split; [exact H|].
  exact (X6_prefix_iteration_order_immaterial "_B__x" _ _ H).
Defined.

(** *** X7 *)

Lemma X7_witness :
  __new__ sample_builtin_attrs ABContainer "ContainerSubclassA"
    [ContainerClassInterface]
    (Namespace [] ["field_that_must_be_inherited";
                   "_also_inherit_private_single_dash"])
  = inr ContainerSubclassA
  ∧ hasattr sample_builtin_attrs ContainerSubclassA
      "_also_inherit_private_single_dash" = true.
Proof.
  assert (__new__ sample_builtin_attrs ABContainer "ContainerSubclassA"
            [ContainerClassInterface]
            (Namespace [] ["field_that_must_be_inherited";
                           "_also_inherit_private_single_dash"])
          = inr ContainerSubclassA) as H by (vm_compute; reflexivity).
  split; [exact H|].
  apply (proj2 (X7_accepted_class_exposes_requirements sample_builtin_attrs
                  _ _ _ _ _ H) ContainerClassInterface).
  - apply list_elem_of_here.
  - reflexivity.
  - vm_compute. apply list_elem_of_further, list_elem_of_here.
Defined.

(** *** X9 *)

Lemma X9_witness :
  Exists (λ p, cls_type p = ABContainer) [ContainerClassInterface]
  ∧ Forall (λ p, cls_type p ≠ ABContainer) [PlainBase]
  ∧ (∀ e, __new__ sample_builtin_attrs ABContainer "B" [ContainerClassInterface]
            (Namespace [] []) = inl e ↔
          __new__ sample_builtin_attrs ABContainer "B" [ContainerClassInterface]
            (Namespace ["field_that_must_be_inherited"] []) = inl e)
  ∧ (∀ e, __new__ sample_builtin_attrs ABContainer "R" [PlainBase]
            (Namespace [] []) = inl e ↔
          __new__ sample_builtin_attrs ABContainer "R" [PlainBase]
            (Namespace [] ["x"]) = inl e).
Proof.
  assert (Exists (λ p, cls_type p = ABContainer) [ContainerClassInterface]) as H1
    by (apply Exists_cons_hd; reflexivity).
  assert (Forall (λ p, cls_type p ≠ ABContainer) [PlainBase]) as H2
    by (constructor; [discriminate | constructor]).
  split; [exact H1|]. split; [exact H2|]. split.
  - intros e.
    exact (proj1 (X9_each_check_reads_one_half_of_the_body sample_builtin_attrs
                    ABContainer "B" [ContainerClassInterface]) H1
                 [] ["field_that_must_be_inherited"] [] e).
  - intros e.
    exact (proj2 (X9_each_check_reads_one_half_of_the_body sample_builtin_attrs
                    ABContainer "R" [PlainBase]) H2 [] [] ["x"] e).
Defined.

(** *** X10 *)

Lemma X10_witness :
  __new__ sample_builtin_attrs ABContainer "S" [RootB]
    (SlottedNamespace [] ["__slots__"; "b"; "c"] ["a"])
  = inr (type_new ABContainer "S" [RootB]
           (SlottedNamespace [] ["__slots__"; "b"; "c"] ["a"])).
Proof.
  apply (X10_more_assignments_never_hurt sample_builtin_attrs ABContainer "S"
           [RootB] (SlottedNamespace [] ["b"; "__slots__"] ["a"])
           (SlottedNamespace [] ["__slots__"; "b"; "c"] ["a"])).
  - reflexivity.
  - reflexivity.
  - intros name. cbn [ns_assigned]. rewrite !elem_of_cons, !elem_of_nil. tauto.
  - vm_compute; reflexivity.
Defined.

(** *** X11 *)

Lemma X11_witness :
  [RootA; RootB] ≡ₚ [RootB; RootA]
  ∧ __new__ sample_builtin_attrs ABContainer "S" [RootB; RootA]
      (Namespace [] ["a"; "b"])
    = inr (type_new ABContainer "S" [RootB; RootA] (Namespace [] ["a"; "b"])).
Proof.
  assert ([RootA; RootB] ≡ₚ [RootB; RootA]) as H by apply perm_swap.
  split; [exact H|].
  apply (proj1 (X11_base_order_immaterial sample_builtin_attrs ABContainer "S"
                  _ _ (Namespace [] ["a"; "b"]) H)).
  vm_compute; reflexivity.
Defined.

(** *** X12 *)

